(** * nodecli-to-api: the file-reading CLI (init-demo.js) and the HTTP
    wrapper around it (server.js)

    The development has a module per source file and one for the
    application as Express assembles it.

    - [FileReader] embeds init-demo.js from the options object that
      commander's [program.opts()] yields: the guard on [options.file],
      [path.resolve], [fs.existsSync], [fs.readFile] and its callback,
      with [console.log], [console.error] and [process.exit] as effects
      of a small state-and-exit monad.
    - [RequestHandler] embeds the route handler of server.js: the
      callback given to [exec] and the JSON envelope it sends.
    - [App] puts the middleware of line 6 of server.js, [express.json()],
      in front of that handler.

    Library code that the two files call and that is not part of the
    repository is taken as a parameter: [path.resolve] and [chalk.red]
    are fields of [Platform], [exec] is an argument of the handler, and
    the parts of [express.json()] that work on the raw request are the
    fields of [App.BodyParser].  The script is embedded from the point
    where commander has parsed the command line. *)

From Stdlib Require Import ZArith String Ascii List.
From stdpp Require Import base option gmap strings list.

Set Warnings "-register-all".

Open Scope Z_scope.
Open Scope string_scope.

(** ** Characters the source texts contain *)

(** U+0022, the double quote of a JavaScript template or JSON text. *)
Definition dq : string := String "034"%char EmptyString.

(** U+000A, the line terminator [console.log] and [console.error] add. *)
Definition nl : string := String "010"%char EmptyString.

(** [contains needle hay]: [needle] occurs in [hay] as a contiguous run. *)
Definition contains (needle hay : string) : Prop :=
  ∃ before after, hay = before +:+ needle +:+ after.

Module FileReader.

(** *** The file system as the script observes it *)

(** What lives at an absolute path.  [Readable data] is a file whose
    UTF-8 decoding is [data]; [Unreadable message] is a path that exists
    but on which [fs.readFile] fails with [err.message = message] (a
    directory, a file without read permission). *)
Inductive Entry : Type :=
| Readable (data : string)
| Unreadable (message : string).

(** Calls that consult the working directory or the file system, in the
    order the script makes them. *)
Inductive Access : Type :=
| Resolve (argument : string)
| Exists (path : string)
| Read (path : string).

(** Library functions and process-wide state the script relies on. *)
Record Platform : Type := {
  cwd : string;                      (* process.cwd() *)
  resolve : string → string → string; (* path.resolve, two arguments *)
  red : string → string              (* chalk.red *)
}.

(** [program.opts()]: [file] is [None] where JavaScript has
    [undefined], that is, when no [-f]/[--file] was given. *)
Record Options : Type := { file : option string }.

(** *** The process: streams, file system, exit *)

Record Proc : Type := {
  fs : gmap string Entry;
  out : string;
  err : string;
  accesses : list Access
}.

Inductive Step (A : Type) : Type :=
| Continue (a : A)
| Exited (code : Z).
Arguments Continue {A} a.
Arguments Exited {A} code.

Definition Script (A : Type) : Type := Proc → Step A * Proc.

#[export] Instance script_ret : MRet Script :=
  λ A a p, (Continue a, p).

#[export] Instance script_bind : MBind Script :=
  λ A B k m p,
    match m p with
    | (Continue a, p') => k a p'
    | (Exited code, p') => (Exited code, p')
    end.

Definition when (b : bool) (m : Script unit) : Script unit :=
  if b then m else mret tt.

Definition console_log (s : string) : Script unit :=
  λ p, (Continue tt,
        {| fs := fs p; out := out p +:+ s +:+ nl; err := err p;
           accesses := accesses p |}).

Definition console_error (s : string) : Script unit :=
  λ p, (Continue tt,
        {| fs := fs p; out := out p; err := err p +:+ s +:+ nl;
           accesses := accesses p |}).

Definition process_exit {A : Type} (code : Z) : Script A :=
  λ p, (Exited code, p).

Definition touch (a : Access) (p : Proc) : Proc :=
  {| fs := fs p; out := out p; err := err p;
     accesses := accesses p ++ [a] |}.

(** [path.resolve(process.cwd(), argument)] *)
Definition path_resolve (pf : Platform) (argument : string) : Script string :=
  λ p, (Continue (resolve pf (cwd pf) argument), touch (Resolve argument) p).

(** [fs.existsSync(path)] *)
Definition existsSync (path : string) : Script bool :=
  λ p, (Continue (bool_decide (is_Some (fs p !! path))), touch (Exists path) p).

(** [fs.readFile(path, 'utf8', callback)]: the pair [(err, data)] the
    callback receives, as a sum; [inl] carries [err.message].  A path
    that vanished since the existence check fails like any other read. *)
Definition readFile (path : string) : Script (string + string) :=
  λ p, (Continue
          match fs p !! path with
          | Some (Readable data) => inr data
          | Some (Unreadable message) => inl message
          | None => inl ("ENOENT: no such file or directory, open '" +:+ path +:+ "'")
          end,
        touch (Read path) p).

(** *** init-demo.js *)

(** JavaScript truthiness of [options.file]: [undefined] and the empty
    string are falsy, every other string is truthy. *)
Definition truthy (v : option string) : bool :=
  match v with
  | Some (String _ _) => true
  | Some EmptyString => false
  | None => false
  end.

(** [options.file] read as a string.  Past the guard of line 21 the
    value is a non-empty string (lemma [truthy_path_argument]). *)
Definition path_argument (options : Options) : string :=
  default "" (file options).

Definition usage : string :=
  "Error: No file path provided. Use -f <path> to specify the file.".

Definition not_found (filePath : string) : string :=
  "Error: File not found at path " +:+ dq +:+ filePath +:+ dq.

Definition read_failed (message : string) : string :=
  "Error reading file: " +:+ message.

Definition init_demo (pf : Platform) (options : Options) : Script unit :=
  (* lines 21-24 *)
  when (negb (truthy (file options)))
       (console_error (red pf usage);; process_exit 1);;
  (* line 27 *)
  filePath ← path_resolve pf (path_argument options);
  (* lines 30-33 *)
  found ← existsSync filePath;
  when (negb found)
       (console_error (red pf (not_found filePath));; process_exit 1);;
  (* lines 36-48 *)
  r ← readFile filePath;
  match r with
  | inl message =>
      console_error (red pf (read_failed message));; process_exit 1
  | inr data => console_log data
  end.

(** *** Running the script to termination *)

(** What the parent of the process observes once it has ended, together
    with the file system it leaves behind. *)
Record Exit : Type := {
  status : Z;
  stdout : string;
  stderr : string;
  touched : list Access;
  disk_after : gmap string Entry
}.

(** A script that runs off its end leaves the event loop empty and the
    process ends with status 0; [process.exit(code)] ends it with
    [code]. *)
Definition run (s : Script unit) (disk : gmap string Entry) : Exit :=
  let '(r, p) := s {| fs := disk; out := ""; err := ""; accesses := [] |} in
  {| status := match r with Continue _ => 0 | Exited code => code end;
     stdout := out p;
     stderr := err p;
     touched := accesses p;
     disk_after := fs p |}.

(** The terminal states of the spec's state machine. *)
Inductive Kind : Type :=
| Success (data : string)
| MissingArgument
| NotFound (filePath : string)
| ReadError (message : string).

(** Which terminal state an invocation reaches, read off the inputs. *)
Definition kind_of (pf : Platform) (options : Options)
    (disk : gmap string Entry) : Kind :=
  if truthy (file options) then
    let filePath := resolve pf (cwd pf) (path_argument options) in
    match disk !! filePath with
    | None => NotFound filePath
    | Some (Unreadable message) => ReadError message
    | Some (Readable data) => Success data
    end
  else MissingArgument.

End FileReader.

Module RequestHandler.

Import FileReader.

(** *** JSON values and [JSON.stringify] *)

(** The envelopes are object literals whose leaves are strings. *)
Inductive json : Type :=
| JString (s : string)
| JObject (members : list (string * json)).

Definition hex_digit (n : nat) : ascii :=
  match n with
  | 0 => "0" | 1 => "1" | 2 => "2" | 3 => "3" | 4 => "4" | 5 => "5"
  | 6 => "6" | 7 => "7" | 8 => "8" | 9 => "9" | 10 => "a" | 11 => "b"
  | 12 => "c" | 13 => "d" | 14 => "e" | _ => "f"
  end%nat%char.

(** One character of a quoted JSON string: the double quote, the
    backslash and the control characters below U+0020 are escaped, every
    other character is copied. *)
Definition escape (c : ascii) : string :=
  let n := nat_of_ascii c in
  if (n =? 34)%nat then "\" +:+ dq
  else if (n =? 92)%nat then "\\"
  else if (n =? 8)%nat then "\b"
  else if (n =? 12)%nat then "\f"
  else if (n =? 10)%nat then "\n"
  else if (n =? 13)%nat then "\r"
  else if (n =? 9)%nat then "\t"
  else if (n <? 32)%nat then
    "\u00" +:+ String (hex_digit (n / 16)) (String (hex_digit (n mod 16)) "")
  else String c "".

Fixpoint escape_all (s : string) : string :=
  match s with
  | EmptyString => ""
  | String c rest => escape c +:+ escape_all rest
  end.

Definition quote (s : string) : string := dq +:+ escape_all s +:+ dq.

Fixpoint stringify (j : json) : string :=
  match j with
  | JString s => quote s
  | JObject members =>
      let fix go (ms : list (string * json)) : string :=
        match ms with
        | [] => ""
        | [(k, v)] => quote k +:+ ":" +:+ stringify v
        | (k, v) :: rest => quote k +:+ ":" +:+ stringify v +:+ "," +:+ go rest
        end in
      "{" +:+ go members +:+ "}"
  end.

(** [obj.key]: the first member named [key], if the object has one. *)
Definition member (key : string) (j : json) : option json :=
  match j with
  | JString _ => None
  | JObject members => snd <$> List.find (λ kv, String.eqb (fst kv) key) members
  end.

(** *** [child_process.exec] *)

(** The [error] argument of the callback: an [Error] whose [code] is
    the exit status of the child ([None] when there is none, as when the
    child could not be started). *)
Record ExecError : Type := {
  message : string;
  code : option Z
}.

(** The three arguments of the callback. *)
Record ExecResult : Type := {
  error : option ExecError;
  exec_stdout : string;
  exec_stderr : string
}.

(** An implementation of [exec]: the command line and the file system
    before, the callback's arguments and the file system after. *)
Definition Exec : Type :=
  string → gmap string Entry → ExecResult * gmap string Entry.

(** *** server.js *)

(** What reaches the handler from the client. *)
Record Request : Type := {
  headers : list (string * string);
  query : string;
  body : string
}.

(** [res.status(code).json(payload)] *)
Record Response : Type := {
  http_status : Z;
  payload : json
}.

(** The text on the wire. *)
Definition response_body (r : Response) : string := stringify (payload r).

(** What the handler does, in order. *)
Inductive Effect : Type :=
| Spawn (command_line : string)
| ConsoleError (s : string)
| ConsoleLog (s : string)
| Send (r : Response).

(** Line 9. *)
Definition command : string := "npm run init-demo --silent -- -f sample.txt".

(** [`${error}`]: [Error.prototype.toString]. *)
Definition error_to_string (e : ExecError) : string := "Error: " +:+ message e.

(** Lines 10-24, the callback given to [exec]. *)
Definition callback (r : ExecResult) : list Effect :=
  match error r with
  | Some e =>
      [ ConsoleError ("Error executing npm script: " +:+ error_to_string e);
        Send {| http_status := 500;
                payload := JObject
                  [ ("status", JString "error");
                    ("error", JObject
                       [ ("message", JString "npm script execution failed");
                         ("details", JString (exec_stderr r)) ]) ] |} ]
  | None =>
      [ ConsoleLog ("npm script output: " +:+ exec_stdout r);
        Send {| http_status := 200;
                payload := JObject
                  [ ("status", JString "success");
                    ("data", JObject [ ("output", JString (exec_stdout r)) ]) ] |} ]
  end.

(** Lines 8-25, the handler of [GET /]. *)
Definition get_root (exec : Exec) (req : Request) (disk : gmap string Entry)
  : list Effect * gmap string Entry :=
  let '(r, disk') := exec command disk in
  (Spawn command :: callback r, disk').

(** The responses among the effects. *)
Definition responses (fx : list Effect) : list Response :=
  omap (λ e, match e with Send r => Some r | _ => None end) fx.

(** The command lines among the effects. *)
Definition spawned (fx : list Effect) : list string :=
  omap (λ e, match e with Spawn c => Some c | _ => None end) fx.

(** *** The command line of line 9 as a child process *)

(** package.json binds the script [init-demo] to [node init-demo.js], and
    npm passes what follows [--] to it: the command line runs
    init-demo.js with [-f sample.txt].  Under [--silent] npm writes
    nothing of its own and ends with the script's status.  [exec] reports
    a non-zero status as an [Error] whose message is the command line
    followed by the captured standard error.  The captured streams are
    taken to fit the buffer [exec] reserves for them. *)
Definition child_result (command_line : string) (x : Exit) : ExecResult :=
  {| error :=
       if (status x =? 0)%Z then None
       else Some {| message := "Command failed: " +:+ command_line +:+ nl +:+ stderr x;
                    code := Some (status x) |};
     exec_stdout := stdout x;
     exec_stderr := stderr x |}.

(** Any other command line is not this program's; the model reports it
    the way the shell reports a command it cannot find, with no output. *)
Definition npm_exec (pf : Platform) : Exec :=
  λ command_line disk,
    if String.eqb command_line command then
      let x := run (init_demo pf {| file := Some "sample.txt" |}) disk in
      (child_result command_line x, disk_after x)
    else
      ({| error := Some {| message := "Command failed: " +:+ command_line +:+ nl;
                           code := Some 127 |};
          exec_stdout := "";
          exec_stderr := "" |}, disk).

(** Writes a JSON text with apostrophes where it has double quotes. *)
Fixpoint jtext (s : string) : string :=
  match s with
  | EmptyString => ""
  | String c rest =>
      String (if Ascii.eqb c "'" then "034"%char else c) (jtext rest)
  end.

End RequestHandler.

(** ** A concrete installation

    The layout of the repository's Dockerfile: the application lives in
    /usr/src/app, the standard streams are not a terminal (so [chalk.red]
    leaves its text as it is), and path arguments are plain relative
    names. *)
Module Demo.

Import FileReader RequestHandler.

Definition platform : Platform :=
  {| cwd := "/usr/src/app";
     resolve := λ base argument, base +:+ "/" +:+ argument;
     red := λ s, s |}.

Definition sample_text : string := "This is a sample demo file." +:+ nl.

Definition disk : gmap string Entry :=
  {[ "/usr/src/app/sample.txt" := Readable sample_text ]}.

Definition locked_disk : gmap string Entry :=
  {[ "/usr/src/app/sample.txt" := Unreadable "EACCES: permission denied" ]}.

Definition request : Request :=
  {| headers := [("accept", "*/*")]; query := ""; body := "" |}.

Definition failed_child : ExecResult :=
  {| error := Some {| message := "Command failed: " +:+ command; code := Some 1 |};
     exec_stdout := "";
     exec_stderr := "boom" |}.

End Demo.

(** The error envelope in the words of the specification, which names
    the message [script execution failed]. *)
Definition spec_error_envelope (details : string) : RequestHandler.json :=
  RequestHandler.JObject
    [ ("status", RequestHandler.JString "error");
      ("error", RequestHandler.JObject
         [ ("message", RequestHandler.JString "script execution failed");
           ("details", RequestHandler.JString details) ]) ].

(** The exclusivity invariant of an envelope: [status] tells which of
    [data] and [error] is present, and the other one is absent. *)
Definition exclusive (envelope : RequestHandler.json) : Prop :=
  (RequestHandler.member "status" envelope
     = Some (RequestHandler.JString "success")
   ↔ is_Some (RequestHandler.member "data" envelope)
     ∧ RequestHandler.member "error" envelope = None)
  ∧ (RequestHandler.member "status" envelope
       = Some (RequestHandler.JString "error")
     ↔ is_Some (RequestHandler.member "error" envelope)
       ∧ RequestHandler.member "data" envelope = None).

(** ** Reading a quoted JSON string back

    The inverse of [RequestHandler.escape_all], one character at a time:
    what a client does with the text between the quotes of a string in
    the response body. *)
Module JsonReader.

Definition hex_value (c : ascii) : option nat :=
  let n := nat_of_ascii c in
  if ((48 <=? n) && (n <=? 57))%nat then Some (n - 48)%nat
  else if ((97 <=? n) && (n <=? 102))%nat then Some (n - 87)%nat
  else None.

(** Reads one character off the front of an escaped text: a two-character
    escape, a [\u00XY] escape, or a character that needs no escape.  A
    bare double quote, a bare control character and an unknown escape are
    refused. *)
Definition unescape_head (s : string) : option (ascii * string) :=
  match s with
  | EmptyString => None
  | String c rest =>
      if Ascii.eqb c "\" then
        match rest with
        | EmptyString => None
        | String e rest' =>
            if Ascii.eqb e "034" then Some ("034"%char, rest')
            else if Ascii.eqb e "\" then Some ("\"%char, rest')
            else if Ascii.eqb e "b" then Some ("008"%char, rest')
            else if Ascii.eqb e "f" then Some ("012"%char, rest')
            else if Ascii.eqb e "n" then Some ("010"%char, rest')
            else if Ascii.eqb e "r" then Some ("013"%char, rest')
            else if Ascii.eqb e "t" then Some ("009"%char, rest')
            else if Ascii.eqb e "u" then
              match rest' with
              | String "0" (String "0" (String h (String l rest''))) =>
                  match hex_value h, hex_value l with
                  | Some a, Some b => Some (ascii_of_nat (16 * a + b), rest'')
                  | _, _ => None
                  end
              | _ => None
              end
            else None
        end
      else if Ascii.eqb c "034" then None
      else if (nat_of_ascii c <? 32)%nat then None
      else Some (c, rest)
  end.

Fixpoint unescape_fuel (fuel : nat) (s : string) : option string :=
  match s with
  | EmptyString => Some ""
  | _ =>
      match fuel with
      | O => None
      | S fuel' =>
          match unescape_head s with
          | None => None
          | Some (c, rest) => String c <$> unescape_fuel fuel' rest
          end
      end
  end.

(** Every step consumes at least one character, so the length of the
    text is fuel enough. *)
Definition unescape (s : string) : option string :=
  unescape_fuel (String.length s) s.

(** No character of [s] is a control character (below U+0020). *)
Fixpoint no_control (s : string) : bool :=
  match s with
  | EmptyString => true
  | String c rest => negb (nat_of_ascii c <? 32)%nat && no_control rest
  end.

End JsonReader.

(** ** The application: line 6 in front of the handler *)
Module App.

Import FileReader RequestHandler.











(** The room [exec] gives each captured stream unless told otherwise,
    in bytes. *)
Definition maxBuffer : Z := 1024 * 1024.

(** Both streams of a finished child fit that room. *)
Definition fits_buffer (x : Exit) : Prop :=
  (Z.of_nat (String.length (stdout x)) ≤ maxBuffer)%Z
  ∧ (Z.of_nat (String.length (stderr x)) ≤ maxBuffer)%Z.

End App.

(** ** More installations, for the examples below *)
Module Samples.

Import FileReader RequestHandler.

(** The sample file beside another file of the application. *)
Definition crowded_disk : gmap string Entry :=
  <[ "/usr/src/app/package.json" := Readable "{}" ]> Demo.disk.

(** A child that ends well after a warning on standard error. *)
Definition warned_child : ExecResult :=
  {| error := None; exec_stdout := "ok" +:+ nl; exec_stderr := "deprecated" +:+ nl |}.

Definition quiet_child : ExecResult :=
  {| error := None; exec_stdout := "ok" +:+ nl; exec_stderr := "" |}.




End Samples.

(** * Properties of init-demo.js *)

Module FileReaderFacts.

Import FileReader.

(** Unfolds the monad and the primitive operations of a script applied
    to a process state. *)
Ltac script_steps :=
  cbv [mbind mret script_bind script_ret when negb
       path_resolve existsSync readFile console_error console_log
       process_exit touch fs out err accesses];
  cbn [app].

Lemma truthy_path_argument (options : Options) :
  truthy (file options) = true → file options = Some (path_argument options).
Proof.
  destruct options as [[f|]]; simpl; [|discriminate].
  destruct f; [discriminate | reflexivity].
Qed.

Lemma truthy_nonempty (P : string) : P ≠ "" → truthy (Some P) = true.
Proof. destruct P; [congruence | reflexivity]. Qed.

(** The four ways through the script, one equation each. *)

Lemma run_missing_argument pf options disk :
  truthy (file options) = false →
  run (init_demo pf options) disk =
    {| status := 1; stdout := ""; stderr := red pf usage +:+ nl;
       touched := []; disk_after := disk |}.
Proof.
  intros Hfalsy. unfold run, init_demo. rewrite Hfalsy. script_steps.
  reflexivity.
Qed.

Lemma run_not_found pf options disk :
  truthy (file options) = true →
  let filePath := resolve pf (cwd pf) (path_argument options) in
  disk !! filePath = None →
  run (init_demo pf options) disk =
    {| status := 1; stdout := "";
       stderr := red pf (not_found filePath) +:+ nl;
       touched := [Resolve (path_argument options); Exists filePath];
       disk_after := disk |}.
Proof.
  intros Htruthy filePath Hnone. unfold run, init_demo. rewrite Htruthy.
  script_steps. fold filePath. rewrite Hnone.
  rewrite bool_decide_eq_false_2 by (intros [? ?]; discriminate).
  reflexivity.
Qed.

Lemma run_read_error pf options disk message :
  truthy (file options) = true →
  let filePath := resolve pf (cwd pf) (path_argument options) in
  disk !! filePath = Some (Unreadable message) →
  run (init_demo pf options) disk =
    {| status := 1; stdout := "";
       stderr := red pf (read_failed message) +:+ nl;
       touched := [Resolve (path_argument options); Exists filePath; Read filePath];
       disk_after := disk |}.
Proof.
  intros Htruthy filePath Hsome. unfold run, init_demo. rewrite Htruthy.
  script_steps. fold filePath.
  rewrite (bool_decide_eq_true_2 (is_Some (disk !! filePath)))
    by (rewrite Hsome; eauto).
  script_steps. fold filePath. rewrite Hsome. reflexivity.
Qed.

Lemma run_success pf options disk data :
  truthy (file options) = true →
  let filePath := resolve pf (cwd pf) (path_argument options) in
  disk !! filePath = Some (Readable data) →
  run (init_demo pf options) disk =
    {| status := 0; stdout := data +:+ nl; stderr := "";
       touched := [Resolve (path_argument options); Exists filePath; Read filePath];
       disk_after := disk |}.
Proof.
  intros Htruthy filePath Hsome. unfold run, init_demo. rewrite Htruthy.
  script_steps. fold filePath.
  rewrite (bool_decide_eq_true_2 (is_Some (disk !! filePath)))
    by (rewrite Hsome; eauto).
  script_steps. fold filePath. rewrite Hsome. reflexivity.
Qed.

Lemma not_found_names_path (filePath : string) :
  contains filePath (not_found filePath).
Proof.
  exists ("Error: File not found at path " +:+ dq), dq. reflexivity.
Qed.

Lemma append_assoc (a b c : string) : (a +:+ b) +:+ c = a +:+ b +:+ c.
Proof.
  induction a as [|x a IH]; [reflexivity|].
  change (String x ((a +:+ b) +:+ c) = String x (a +:+ b +:+ c)).
  by rewrite IH.
Qed.

Lemma contains_line (needle message : string) :
  contains needle message → contains needle (message +:+ nl).
Proof.
  intros (before & after & ->). exists before, (after +:+ nl).
  by rewrite !append_assoc.
Qed.

(** C1, as amended.  For a non-empty path argument [P] that resolves to
    a readable file, the script ends with status 0, standard error stays
    empty, and standard output is the decoded content of the file
    followed by the one line feed that [console.log] appends: nothing is
    removed, one character is added. *)
Theorem existing_file_printed_with_line_feed
    (pf : Platform) (P : string) (disk : gmap string Entry) (data : string) :
  P ≠ "" →
  disk !! resolve pf (cwd pf) P = Some (Readable data) →
  let x := run (init_demo pf {| file := Some P |}) disk in
  status x = 0 ∧ stdout x = data +:+ nl ∧ stderr x = "".
Proof.
  intros HP Hfile x. subst x.
  rewrite (run_success pf {| file := Some P |} disk data);
    [ repeat split | by apply truthy_nonempty | exact Hfile ].
Qed.

Lemma existing_file_printed_with_line_feed_witness :
  let x := run (init_demo Demo.platform {| file := Some "sample.txt" |}) Demo.disk in
  status x = 0 ∧ stdout x = Demo.sample_text +:+ nl ∧ stderr x = "".
Proof.
  apply (existing_file_printed_with_line_feed
           Demo.platform "sample.txt" Demo.disk Demo.sample_text).
  - discriminate.
  - vm_compute. reflexivity.
Defined.

(** C1 as the specification states it fails: the sample file holds
    [This is a sample demo file.] and a line feed, the script is given
    [-f sample.txt], and standard output is not the content of the file
    (it is the content and a second line feed). *)
Lemma stdout_is_not_the_content_alone :
  Demo.disk !! resolve Demo.platform (cwd Demo.platform) "sample.txt"
    = Some (Readable Demo.sample_text)
  ∧ stdout (run (init_demo Demo.platform {| file := Some "sample.txt" |}) Demo.disk)
    ≠ Demo.sample_text.
Proof.
  split; [vm_compute; reflexivity | vm_compute; discriminate].
Qed.

(** C4.  For a non-empty path argument [P] whose resolved form is absent
    from the file system, the script ends with a non-zero status, writes
    nothing to standard output, and writes to standard error one line:
    [chalk.red] of a message that contains the resolved path.  Where
    [chalk.red] leaves its text as it is, that line contains the path. *)
Theorem missing_path_reported
    (pf : Platform) (P : string) (disk : gmap string Entry) :
  P ≠ "" →
  disk !! resolve pf (cwd pf) P = None →
  let filePath := resolve pf (cwd pf) P in
  let x := run (init_demo pf {| file := Some P |}) disk in
  status x ≠ 0
  ∧ stdout x = ""
  ∧ stderr x = red pf (not_found filePath) +:+ nl
  ∧ contains filePath (not_found filePath)
  ∧ ((∀ s, red pf s = s) → contains filePath (stderr x)).
Proof.
  intros HP Hnone filePath x. subst x.
  rewrite (run_not_found pf {| file := Some P |} disk);
    [ | by apply truthy_nonempty | exact Hnone ].
  cbn [status stdout stderr path_argument file default from_option id].
  fold filePath. repeat split.
  - discriminate.
  - apply not_found_names_path.
  - intros Hplain. rewrite Hplain.
    apply contains_line, not_found_names_path.
Qed.

Lemma missing_path_reported_witness :
  let x := run (init_demo Demo.platform {| file := Some "missing.txt" |}) Demo.disk in
  status x ≠ 0
  ∧ stdout x = ""
  ∧ stderr x = not_found "/usr/src/app/missing.txt" +:+ nl
  ∧ contains "/usr/src/app/missing.txt" (not_found "/usr/src/app/missing.txt")
  ∧ ((∀ s : string, s = s) → contains "/usr/src/app/missing.txt" (stderr x)).
Proof.
  apply (missing_path_reported Demo.platform "missing.txt" Demo.disk).
  - discriminate.
  - vm_compute. reflexivity.
Defined.

(** C5.  Without [-f]/[--file] ([options.file] is [undefined]) the
    script ends with status 1 and the usage line on standard error,
    nothing on standard output, and it has made no call that resolves a
    path, checks existence or reads: the list of accesses is empty and
    the file system is the one it started with. *)
Theorem no_flag_fails_before_any_access
    (pf : Platform) (disk : gmap string Entry) :
  let x := run (init_demo pf {| file := None |}) disk in
  status x = 1
  ∧ status x ≠ 0
  ∧ stderr x = red pf usage +:+ nl
  ∧ stderr x ≠ ""
  ∧ stdout x = ""
  ∧ touched x = []
  ∧ disk_after x = disk.
Proof.
  intros x. subst x.
  rewrite (run_missing_argument pf {| file := None |} disk) by reflexivity.
  cbn [status stdout stderr touched disk_after]. repeat split; try discriminate.
  destruct (red pf usage); discriminate.
Qed.

(** C6.  Every invocation ends with status 0 or 1.  Status 0 is the
    success state alone, with the content (and [console.log]'s line feed)
    on standard output and nothing on standard error; each of the three
    failure states ends with status 1, its message on standard error and
    nothing on standard output. *)
Theorem exit_status_is_zero_or_one
    (pf : Platform) (options : Options) (disk : gmap string Entry) :
  let x := run (init_demo pf options) disk in
  (status x = 0 ∨ status x = 1)
  ∧ match kind_of pf options disk with
    | Success data =>
        status x = 0 ∧ stdout x = data +:+ nl ∧ stderr x = ""
    | MissingArgument =>
        status x = 1 ∧ stdout x = "" ∧ stderr x = red pf usage +:+ nl
    | NotFound filePath =>
        status x = 1 ∧ stdout x = ""
        ∧ stderr x = red pf (not_found filePath) +:+ nl
    | ReadError message =>
        status x = 1 ∧ stdout x = ""
        ∧ stderr x = red pf (read_failed message) +:+ nl
    end.
Proof.
  intros x. subst x. unfold kind_of.
  destruct (truthy (file options)) eqn:Htruthy.
  - cbv zeta.
    destruct (disk !! resolve pf (cwd pf) (path_argument options))
      as [[data|message]|] eqn:Hlookup.
    + rewrite (run_success pf options disk data Htruthy Hlookup). cbn. tauto.
    + rewrite (run_read_error pf options disk message Htruthy Hlookup).
      cbn. tauto.
    + rewrite (run_not_found pf options disk Htruthy Hlookup). cbn. tauto.
  - rewrite (run_missing_argument pf options disk Htruthy). cbn. tauto.
Qed.

(** C8.  [-f] with the empty string ([options.file] is the empty
    string) behaves exactly as no flag at all: the same status, streams
    and accesses.  It is the missing-argument state: status 1, the usage
    line on standard error, and the empty string is never resolved
    against the working directory. *)
Theorem empty_path_is_missing_argument
    (pf : Platform) (disk : gmap string Entry) :
  let x := run (init_demo pf {| file := Some "" |}) disk in
  x = run (init_demo pf {| file := None |}) disk
  ∧ kind_of pf {| file := Some "" |} disk = MissingArgument
  ∧ status x = 1
  ∧ stdout x = ""
  ∧ stderr x = red pf usage +:+ nl
  ∧ touched x = [].
Proof.
  intros x. subst x.
  rewrite (run_missing_argument pf {| file := Some "" |} disk) by reflexivity.
  rewrite (run_missing_argument pf {| file := None |} disk) by reflexivity.
  repeat split.
Qed.

End FileReaderFacts.

(** * Properties of server.js *)

Module RequestHandlerFacts.

Import FileReader RequestHandler.

(** The script only observes the file system. *)
Lemma init_demo_keeps_disk pf options disk :
  disk_after (run (init_demo pf options) disk) = disk.
Proof.
  destruct (truthy (file options)) eqn:Htruthy.
  - destruct (disk !! resolve pf (cwd pf) (path_argument options))
      as [[data|message]|] eqn:Hlookup.
    + by rewrite (FileReaderFacts.run_success pf options disk data Htruthy Hlookup).
    + by rewrite (FileReaderFacts.run_read_error pf options disk message Htruthy Hlookup).
    + by rewrite (FileReaderFacts.run_not_found pf options disk Htruthy Hlookup).
  - by rewrite (FileReaderFacts.run_missing_argument pf options disk Htruthy).
Qed.

Lemma npm_exec_command pf disk :
  npm_exec pf command disk =
    (child_result command (run (init_demo pf {| file := Some "sample.txt" |}) disk),
     disk).
Proof.
  unfold npm_exec. rewrite String.eqb_refl. cbv zeta.
  by rewrite init_demo_keeps_disk.
Qed.

(** A failed run of the script reaches the callback as an error. *)
Lemma child_failure_is_error (command_line : string) (x : Exit) :
  status x ≠ 0 → is_Some (error (child_result command_line x)).
Proof.
  intros Hstatus. unfold child_result. cbn [error].
  destruct (Z.eqb_spec (status x) 0); [contradiction | eauto].
Qed.

(** The handler on a readable sample file. *)
Lemma get_root_readable pf req disk data :
  disk !! resolve pf (cwd pf) "sample.txt" = Some (Readable data) →
  get_root (npm_exec pf) req disk =
    ([ Spawn command;
       ConsoleLog ("npm script output: " +:+ data +:+ nl);
       Send {| http_status := 200;
               payload := JObject
                 [ ("status", JString "success");
                   ("data", JObject [ ("output", JString (data +:+ nl)) ]) ] |} ],
     disk).
Proof.
  intros Hfile. unfold get_root. rewrite npm_exec_command.
  rewrite (FileReaderFacts.run_success pf {| file := Some "sample.txt" |} disk data);
    [ reflexivity | reflexivity | exact Hfile ].
Qed.

(** C2, as amended.  When the sample file holds exactly
    [This is a sample demo file.] and a line feed, [GET /] sends one
    response, with status 200, whose body is the success envelope with
    an [output] of the file content followed by the line feed that
    [console.log] appends: the text ends in two line feeds. *)
Theorem get_root_sample_envelope
    (pf : Platform) (req : Request) (disk : gmap string Entry) :
  disk !! resolve pf (cwd pf) "sample.txt"
    = Some (Readable ("This is a sample demo file." +:+ nl)) →
  ∃ r, responses (fst (get_root (npm_exec pf) req disk)) = [r]
       ∧ http_status r = 200
       ∧ response_body r =
           jtext "{'status':'success','data':{'output':'This is a sample demo file.\n\n'}}"
       ∧ member "data" (payload r) ≫= member "output"
           = Some (JString (("This is a sample demo file." +:+ nl) +:+ nl)).
Proof.
  intros Hfile. rewrite (get_root_readable pf req disk _ Hfile).
  eexists. split; [reflexivity|]. repeat split.
Qed.

Lemma get_root_sample_envelope_witness :
  ∃ r, responses (fst (get_root (npm_exec Demo.platform) Demo.request Demo.disk)) = [r]
       ∧ http_status r = 200
       ∧ response_body r =
           jtext "{'status':'success','data':{'output':'This is a sample demo file.\n\n'}}"
       ∧ member "data" (payload r) ≫= member "output"
           = Some (JString (("This is a sample demo file." +:+ nl) +:+ nl)).
Proof.
  apply (get_root_sample_envelope Demo.platform Demo.request Demo.disk).
  vm_compute. reflexivity.
Defined.

(** C2 as the specification states it fails: with the sample file
    holding [This is a sample demo file.] and a line feed, the body of
    the response is not the envelope whose [output] ends in one line
    feed. *)
Lemma sample_body_is_not_the_stated_one :
  Demo.disk !! resolve Demo.platform (cwd Demo.platform) "sample.txt"
    = Some (Readable ("This is a sample demo file." +:+ nl))
  ∧ response_body
      <$> responses (fst (get_root (npm_exec Demo.platform) Demo.request Demo.disk))
    ≠ [ jtext "{'status':'success','data':{'output':'This is a sample demo file.\n'}}" ].
Proof.
  split; [vm_compute; reflexivity | vm_compute; discriminate].
Qed.

(** C3, as amended.  Whenever [exec] hands the callback an error,
    whatever made the child fail or kept it from starting, [GET /] sends
    one response: status 500 and the envelope with status [error], the
    message [npm script execution failed] and the captured standard error
    as details.  Status code and message do not depend on the error. *)
Theorem failure_envelope
    (exec : Exec) (req : Request) (disk disk' : gmap string Entry)
    (r : ExecResult) :
  exec command disk = (r, disk') →
  is_Some (error r) →
  responses (fst (get_root exec req disk)) =
    [ {| http_status := 500;
         payload := JObject
           [ ("status", JString "error");
             ("error", JObject
                [ ("message", JString "npm script execution failed");
                  ("details", JString (exec_stderr r)) ]) ] |} ].
Proof.
  intros Hexec [e He]. unfold get_root. rewrite Hexec.
  cbn [fst]. unfold callback. rewrite He. reflexivity.
Qed.

Lemma failure_envelope_witness :
  responses (fst (get_root (npm_exec Demo.platform) Demo.request Demo.locked_disk)) =
    [ {| http_status := 500;
         payload := JObject
           [ ("status", JString "error");
             ("error", JObject
                [ ("message", JString "npm script execution failed");
                  ("details",
                   JString ("Error reading file: EACCES: permission denied" +:+ nl)) ]) ] |} ].
Proof.
  apply (failure_envelope (npm_exec Demo.platform) Demo.request
           Demo.locked_disk Demo.locked_disk
           (fst (npm_exec Demo.platform command Demo.locked_disk))).
  - vm_compute. reflexivity.
  - vm_compute. eauto.
Defined.

(** C3 as the specification states it fails: on a failed child the
    response is not the envelope whose message is
    [script execution failed]. *)
Lemma failure_message_is_not_the_stated_one :
  is_Some (error Demo.failed_child)
  ∧ responses (callback Demo.failed_child)
    ≠ [ {| http_status := 500;
           payload := spec_error_envelope (exec_stderr Demo.failed_child) |} ].
Proof.
  split; [vm_compute; eauto | vm_compute; discriminate].
Qed.

(** Each failure state of the script is such an error: the three of
    them reach the client as the same status and message. *)
Lemma file_reader_failures_collapse pf req disk :
  status (run (init_demo pf {| file := Some "sample.txt" |}) disk) ≠ 0 →
  responses (fst (get_root (npm_exec pf) req disk)) =
    [ {| http_status := 500;
         payload := JObject
           [ ("status", JString "error");
             ("error", JObject
                [ ("message", JString "npm script execution failed");
                  ("details",
                   JString (stderr (run (init_demo pf {| file := Some "sample.txt" |})
                                        disk))) ]) ] |} ].
Proof.
  intros Hstatus. unfold get_root. rewrite npm_exec_command. cbn [fst].
  destruct (child_failure_is_error command _ Hstatus) as [e He].
  unfold callback. rewrite He. reflexivity.
Qed.

(** C7.  A [GET /] leaves the file system as it found it, and a second
    [GET /] on that file system, whatever the request, has the same
    effects: the same command, log line, status code and envelope. *)
Theorem get_root_is_repeatable
    (pf : Platform) (req1 req2 : Request) (disk : gmap string Entry) :
  let first := get_root (npm_exec pf) req1 disk in
  let second := get_root (npm_exec pf) req2 (snd first) in
  snd first = disk
  ∧ snd second = disk
  ∧ fst second = fst first
  ∧ responses (fst second) = responses (fst first).
Proof.
  intros first second. subst first second.
  unfold get_root.
  repeat (rewrite npm_exec_command; cbn [fst snd]).
  repeat split.
Qed.

(** C9.  Whatever [exec] reports, the handler sends exactly one
    response, and its envelope is exclusive: status [success] goes with
    [data] present and [error] absent, status [error] with [error]
    present and [data] absent, and the status is one of the two. *)
Theorem one_exclusive_envelope
    (exec : Exec) (req : Request) (disk : gmap string Entry) :
  ∃ r, responses (fst (get_root exec req disk)) = [r]
       ∧ exclusive (payload r)
       ∧ (member "status" (payload r) = Some (JString "success")
          ∨ member "status" (payload r) = Some (JString "error")).
Proof.
  unfold get_root. destruct (exec command disk) as [r disk']. cbn [fst].
  unfold callback. destruct (error r) as [e|].
  - eexists. split; [reflexivity|]. unfold exclusive. cbn.
    repeat split; try discriminate; eauto.
    + intros [[? ?] _]. discriminate.
  - eexists. split; [reflexivity|]. unfold exclusive. cbn.
    repeat split; try discriminate; eauto.
    + intros [[? ?] _]. discriminate.
Qed.

(** The handler itself never reads its request: on the same [exec] and
    file system any two requests have the same effects, and the one
    command line started is the constant of line 9. *)
Lemma request_content_is_ignored
    (exec : Exec) (req1 req2 : Request) (disk : gmap string Entry) :
  get_root exec req1 disk = get_root exec req2 disk
  ∧ spawned (fst (get_root exec req1 disk)) = [command]
  ∧ spawned (fst (get_root exec req2 disk)) = [command].
Proof.
  split; [reflexivity|].
  unfold get_root. destruct (exec command disk) as [r disk']. cbn [fst].
  unfold callback. destruct (error r); split; reflexivity.
Qed.

End RequestHandlerFacts.

(** * Further properties of init-demo.js *)

Module FileReaderExtras.

Import FileReader FileReaderFacts.

Lemma length_append (a b : string) :
  String.length (a +:+ b) = (String.length a + String.length b)%nat.
Proof.
  induction a as [|x a IH]; [reflexivity|].
  change (S (String.length (a +:+ b)) = S (String.length a + String.length b)).
  by rewrite IH.
Qed.

Lemma append_inj_l (a b c : string) : a +:+ b = a +:+ c → b = c.
Proof.
  induction a as [|x a IH]; [done|].
  intros H. injection H as H. by apply IH.
Qed.

Lemma append_inj_r (a b c : string) : a +:+ c = b +:+ c → a = b.
Proof.
  revert b. induction a as [|x a IH]; intros [|y b] H.
  - done.
  - apply (f_equal String.length) in H. rewrite !length_append in H.
    cbn [String.length] in H. lia.
  - apply (f_equal String.length) in H. rewrite !length_append in H.
    cbn [String.length] in H. lia.
  - injection H as -> H. f_equal. by apply IH.
Qed.

Lemma line_nonempty (s : string) : s +:+ nl ≠ "".
Proof. destruct s; discriminate. Qed.

(** The whole run, by the terminal state it reaches. *)
Lemma run_by_kind pf options disk :
  run (init_demo pf options) disk =
    let filePath := resolve pf (cwd pf) (path_argument options) in
    match kind_of pf options disk with
    | Success data =>
        {| status := 0; stdout := data +:+ nl; stderr := "";
           touched := [Resolve (path_argument options); Exists filePath; Read filePath];
           disk_after := disk |}
    | MissingArgument =>
        {| status := 1; stdout := ""; stderr := red pf usage +:+ nl;
           touched := []; disk_after := disk |}
    | NotFound missing =>
        {| status := 1; stdout := ""; stderr := red pf (not_found missing) +:+ nl;
           touched := [Resolve (path_argument options); Exists filePath];
           disk_after := disk |}
    | ReadError message =>
        {| status := 1; stdout := ""; stderr := red pf (read_failed message) +:+ nl;
           touched := [Resolve (path_argument options); Exists filePath; Read filePath];
           disk_after := disk |}
    end.
Proof.
  unfold kind_of. cbv zeta.
  destruct (truthy (file options)) eqn:Htruthy.
  - destruct (disk !! resolve pf (cwd pf) (path_argument options))
      as [[data|message]|] eqn:Hlookup.
    + by rewrite (run_success pf options disk data Htruthy Hlookup).
    + by rewrite (run_read_error pf options disk message Htruthy Hlookup).
    + by rewrite (run_not_found pf options disk Htruthy Hlookup).
  - by rewrite (run_missing_argument pf options disk Htruthy).
Qed.

Lemma usage_is_not_not_found p : usage ≠ not_found p.
Proof. intros H. vm_compute in H. discriminate H. Qed.

Lemma usage_is_not_read_failed m : usage ≠ read_failed m.
Proof. intros H. vm_compute in H. discriminate H. Qed.

Lemma not_found_is_not_read_failed p m : not_found p ≠ read_failed m.
Proof. intros H. vm_compute in H. discriminate H. Qed.

Lemma not_found_inj p q : not_found p = not_found q → p = q.
Proof.
  unfold not_found. intros H.
  apply append_inj_l, append_inj_l in H. by apply append_inj_r in H.
Qed.

Lemma read_failed_inj m n : read_failed m = read_failed n → m = n.
Proof. unfold read_failed. apply append_inj_l. Qed.

(** Splits a membership in a list written out in full into its cases
    and drops the ones that equate different constructors. *)
Ltac members H :=
  repeat (apply elem_of_cons in H as [H|H]);
  try (by apply elem_of_nil in H); try discriminate H.

(** X1.  Every run writes to exactly one of the two streams, and the
    status tells which: status 0 goes with a non-empty standard output
    and an empty standard error, status 1 with an empty standard output
    and a non-empty standard error.  An empty file still prints a line
    feed. *)
Theorem one_stream_per_run
    (pf : Platform) (options : Options) (disk : gmap string Entry) :
  let x := run (init_demo pf options) disk in
  (status x = 0 ∧ stdout x ≠ "" ∧ stderr x = "")
  ∨ (status x = 1 ∧ stdout x = "" ∧ stderr x ≠ "").
Proof.
  intros x. subst x. rewrite run_by_kind. cbv zeta.
  destruct (kind_of pf options disk); cbn [status stdout stderr];
    [ left | right .. ]; repeat split; auto using line_nonempty.
Qed.

(** X2.  The accesses of a run are an initial part of: resolve the
    argument, check that the resolved path exists, read the resolved
    path.  A read is only ever made of the resolved path, and only when
    the file system has an entry there. *)
Theorem accesses_follow_one_path
    (pf : Platform) (options : Options) (disk : gmap string Entry) :
  let filePath := resolve pf (cwd pf) (path_argument options) in
  let x := run (init_demo pf options) disk in
  touched x `prefix_of`
    [Resolve (path_argument options); Exists filePath; Read filePath]
  ∧ (∀ q, Read q ∈ touched x → q = filePath ∧ is_Some (disk !! q))
  ∧ (∀ q, Exists q ∈ touched x → q = filePath).
Proof.
  intros filePath x. subst x. rewrite run_by_kind. cbv zeta. fold filePath.
  unfold kind_of. cbv zeta. fold filePath.
  destruct (truthy (file options)); [|cbn [touched]].
  - destruct (disk !! filePath) as [[data|message]|] eqn:Hlookup; cbn [touched];
      (split; [first [done | by exists [Read filePath]]|]);
      split; intros q Hq; members Hq; injection Hq as ->;
      first [done | split; [done | by rewrite Hlookup]].
  - split; [apply prefix_nil|]. split; intros q Hq; members Hq.
Qed.

(** X3.  A run touches nothing exactly when the argument is missing or
    empty; for every non-empty argument the accesses begin with the
    resolution of that argument followed by the existence check of the
    resolved path. *)
Theorem untouched_iff_no_argument
    (pf : Platform) (options : Options) (disk : gmap string Entry) :
  let x := run (init_demo pf options) disk in
  (touched x = [] ↔ file options = None ∨ file options = Some "")
  ∧ (∀ f, file options = Some f → f ≠ "" →
       ∃ rest, touched x = Resolve f :: Exists (resolve pf (cwd pf) f) :: rest).
Proof.
  intros x. subst x. rewrite run_by_kind. cbv zeta. unfold kind_of. cbv zeta.
  destruct options as [[[|c f]|]]; cbn [file truthy touched path_argument
                                        default from_option id].
  - split; [tauto|]. intros f [= <-] Hf. by destruct Hf.
  - split.
    + split; [|intros [|]; discriminate].
      destruct (disk !! _) as [[|]|]; discriminate.
    + intros g [= <-] _. destruct (disk !! _) as [[|]|]; eauto.
  - split; [tauto|]. intros f [=].
Qed.

(** X4.  The outcome of a run depends on the file system only through
    the entry at the resolved path: two file systems that agree there
    give the same status, streams and accesses. *)
Theorem only_the_resolved_entry_matters
    (pf : Platform) (options : Options) (disk1 disk2 : gmap string Entry) :
  disk1 !! resolve pf (cwd pf) (path_argument options)
    = disk2 !! resolve pf (cwd pf) (path_argument options) →
  let x1 := run (init_demo pf options) disk1 in
  let x2 := run (init_demo pf options) disk2 in
  status x1 = status x2 ∧ stdout x1 = stdout x2
  ∧ stderr x1 = stderr x2 ∧ touched x1 = touched x2.
Proof.
  intros Hsame x1 x2. subst x1 x2. rewrite !run_by_kind. cbv zeta.
  unfold kind_of. cbv zeta. rewrite Hsame.
  destruct (truthy (file options)); [|done].
  by destruct (disk2 !! _) as [[|]|].
Qed.

Lemma only_the_resolved_entry_matters_witness :
  let x1 := run (init_demo Demo.platform {| file := Some "sample.txt" |}) Demo.disk in
  let x2 := run (init_demo Demo.platform {| file := Some "sample.txt" |})
                Samples.crowded_disk in
  status x1 = status x2 ∧ stdout x1 = stdout x2
  ∧ stderr x1 = stderr x2 ∧ touched x1 = touched x2.
Proof.
  apply (only_the_resolved_entry_matters Demo.platform
           {| file := Some "sample.txt" |} Demo.disk Samples.crowded_disk).
  vm_compute. reflexivity.
Defined.

(** X5.  Among runs of the script body (lines 21-48, past commander's
    parsing, so not the runs that [--version] or [--help] end), standard
    output determines the content: two runs that end with status 0, on
    any platforms, arguments and file systems, and print the same text
    have read the same decoded content, the text [fs.readFile] hands to
    its callback.  That content is the output without its last line
    feed. *)
Theorem stdout_determines_content
    (pf1 pf2 : Platform) (options1 options2 : Options)
    (disk1 disk2 : gmap string Entry) :
  let x1 := run (init_demo pf1 options1) disk1 in
  let x2 := run (init_demo pf2 options2) disk2 in
  status x1 = 0 → status x2 = 0 → stdout x1 = stdout x2 →
  ∃ data, kind_of pf1 options1 disk1 = Success data
          ∧ kind_of pf2 options2 disk2 = Success data
          ∧ stdout x1 = data +:+ nl.
Proof.
  intros x1 x2. subst x1 x2. rewrite !run_by_kind. cbv zeta.
  destruct (kind_of pf1 options1 disk1) as [data1| | |];
    cbn [status stdout]; try discriminate.
  destruct (kind_of pf2 options2 disk2) as [data2| | |];
    cbn [status stdout]; try discriminate.
  intros _ _ Hout. apply append_inj_r in Hout. subst data2.
  by exists data1.
Qed.

Lemma stdout_determines_content_witness :
  ∃ data, kind_of Demo.platform {| file := Some "sample.txt" |} Demo.disk
            = Success data
          ∧ kind_of Demo.platform {| file := Some "sample.txt" |} Samples.crowded_disk
            = Success data
          ∧ stdout (run (init_demo Demo.platform {| file := Some "sample.txt" |})
                        Demo.disk) = data +:+ nl.
Proof.
  apply (stdout_determines_content Demo.platform Demo.platform
           {| file := Some "sample.txt" |} {| file := Some "sample.txt" |}
           Demo.disk Samples.crowded_disk);
    vm_compute; reflexivity.
Defined.

(** X6.  The exit status is 1 for every failure, but standard error
    tells the failures apart: where [chalk.red] does not identify two
    different texts, two failed runs with the same standard error are in
    the same terminal state, with the same missing path or the same read
    error. *)
Theorem stderr_determines_failure
    (pf : Platform) (options1 options2 : Options)
    (disk1 disk2 : gmap string Entry) :
  (∀ s t, red pf s = red pf t → s = t) →
  let x1 := run (init_demo pf options1) disk1 in
  let x2 := run (init_demo pf options2) disk2 in
  status x1 = 1 → status x2 = 1 → stderr x1 = stderr x2 →
  kind_of pf options1 disk1 = kind_of pf options2 disk2.
Proof.
  intros Hred x1 x2. subst x1 x2. rewrite !run_by_kind. cbv zeta.
  destruct (kind_of pf options1 disk1) as [data1| |p1|m1];
    cbn [status stderr]; try discriminate;
    destruct (kind_of pf options2 disk2) as [data2| |p2|m2];
    cbn [status stderr]; try discriminate;
    intros _ _ Herr; apply append_inj_r, Hred in Herr.
  - reflexivity.
  - by apply usage_is_not_not_found in Herr.
  - by apply usage_is_not_read_failed in Herr.
  - symmetry in Herr. by apply usage_is_not_not_found in Herr.
  - by apply not_found_inj in Herr as ->.
  - by apply not_found_is_not_read_failed in Herr.
  - symmetry in Herr. by apply usage_is_not_read_failed in Herr.
  - symmetry in Herr. by apply not_found_is_not_read_failed in Herr.
  - by apply read_failed_inj in Herr as ->.
Qed.

Lemma stderr_determines_failure_witness :
  kind_of Demo.platform {| file := Some "missing.txt" |} Demo.disk
  = kind_of Demo.platform {| file := Some "missing.txt" |} Samples.crowded_disk.
Proof.
  apply (stderr_determines_failure Demo.platform
           {| file := Some "missing.txt" |} {| file := Some "missing.txt" |}
           Demo.disk Samples.crowded_disk).
  - intros s t H. exact H.
  - vm_compute. reflexivity.
  - vm_compute. reflexivity.
  - vm_compute. reflexivity.
Defined.

End FileReaderExtras.

(** * Further properties of server.js *)

Module RequestHandlerExtras.

Import FileReader RequestHandler JsonReader.
Import FileReaderFacts FileReaderExtras RequestHandlerFacts.

(** *** The response body as text *)

Lemma success_body (output : string) :
  stringify (JObject [ ("status", JString "success");
                       ("data", JObject [ ("output", JString output) ]) ])
  = jtext "{'status':'success','data':{'output':'"
    +:+ escape_all output +:+ jtext "'}}".
Proof. cbn [stringify]. unfold quote. rewrite !append_assoc. reflexivity. Qed.

Lemma failure_body (details : string) :
  stringify (JObject
               [ ("status", JString "error");
                 ("error", JObject
                    [ ("message", JString "npm script execution failed");
                      ("details", JString details) ]) ])
  = jtext "{'status':'error','error':{'message':'npm script execution failed','details':'"
    +:+ escape_all details +:+ jtext "'}}".
Proof. cbn [stringify]. unfold quote. rewrite !append_assoc. reflexivity. Qed.

(** *** Escaping, character by character *)

Lemma escape_nonempty (c : ascii) : ∃ a r, escape c = String a r.
Proof. destruct c as [[] [] [] [] [] [] [] []]; vm_compute; eauto. Qed.

Lemma unescape_head_escape (c : ascii) (rest : string) :
  unescape_head (escape c +:+ rest) = Some (c, rest).
Proof. destruct c as [[] [] [] [] [] [] [] []]; reflexivity. Qed.

Lemma no_control_escape (c : ascii) : no_control (escape c) = true.
Proof. destruct c as [[] [] [] [] [] [] [] []]; reflexivity. Qed.

Lemma no_control_append (a b : string) :
  no_control (a +:+ b) = no_control a && no_control b.
Proof.
  induction a as [|x a IH]; [reflexivity|].
  change (negb (nat_of_ascii x <? 32)%nat && no_control (a +:+ b)
          = negb (nat_of_ascii x <? 32)%nat && no_control a && no_control b).
  rewrite IH. by rewrite andb_assoc.
Qed.

Lemma no_control_escape_all (s : string) : no_control (escape_all s) = true.
Proof.
  induction s as [|c s IH]; [reflexivity|].
  cbn [escape_all]. by rewrite no_control_append, no_control_escape, IH.
Qed.

(** What [escape_all] writes, [unescape_fuel] reads back, given fuel for
    every character of the escaped text. *)
Lemma unescape_fuel_escape_all (s : string) (fuel : nat) :
  (String.length (escape_all s) ≤ fuel)%nat →
  unescape_fuel fuel (escape_all s) = Some s.
Proof.
  revert fuel. induction s as [|c s IH]; intros fuel Hfuel.
  - by destruct fuel.
  - cbn [escape_all] in *. rewrite length_append in Hfuel.
    destruct (escape_nonempty c) as (a & r & Hc).
    assert (Hhead := unescape_head_escape c (escape_all s)).
    rewrite Hc in Hfuel, Hhead |- *. cbn [String.length] in Hfuel.
    destruct fuel as [|fuel]; [lia|].
    change (String a r +:+ escape_all s) with (String a (r +:+ escape_all s))
      in Hhead |- *.
    cbn [unescape_fuel]. rewrite Hhead.
    rewrite IH by lia. reflexivity.
Qed.

Lemma unescape_escape_all (s : string) : unescape (escape_all s) = Some s.
Proof. unfold unescape. by apply unescape_fuel_escape_all. Qed.

Lemma escape_all_inj (s t : string) : escape_all s = escape_all t → s = t.
Proof.
  intros H. apply (f_equal unescape) in H.
  rewrite !unescape_escape_all in H. by injection H.
Qed.

(** *** The handler *)

Lemma singleton_inj {A : Type} (a b : A) : [a] = [b] → a = b.
Proof. by intros [= ->]. Qed.

(** X7.  The response depends on what [exec] reports only through
    whether there is an error and through one stream: standard output
    when there is none, standard error when there is one.  What a
    successful child wrote to standard error, and what a failed child
    wrote to standard output, never reaches the client; nor does the
    exit status or the text of the error. *)
Theorem unused_stream_is_dropped (r1 r2 : ExecResult) :
  match error r1, error r2 with
  | None, None => exec_stdout r1 = exec_stdout r2
  | Some _, Some _ => exec_stderr r1 = exec_stderr r2
  | _, _ => False
  end →
  responses (callback r1) = responses (callback r2).
Proof.
  unfold callback.
  destruct (error r1), (error r2); try contradiction; intros ->; reflexivity.
Qed.

Lemma unused_stream_is_dropped_witness :
  responses (callback Samples.warned_child)
  = responses (callback Samples.quiet_child).
Proof.
  apply (unused_stream_is_dropped Samples.warned_child Samples.quiet_child).
  reflexivity.
Defined.

(** X8.  The body on the wire is lossless: two results of [exec] whose
    responses have the same body text agree on whether there was an
    error and on the stream the envelope carries.  A success body is
    never the body of a failure, and the client can read the output (or
    the details) back exactly. *)
Theorem body_determines_output (r1 r2 : ExecResult) :
  response_body <$> responses (callback r1)
    = response_body <$> responses (callback r2) →
  match error r1, error r2 with
  | None, None => exec_stdout r1 = exec_stdout r2
  | Some _, Some _ => exec_stderr r1 = exec_stderr r2
  | _, _ => False
  end.
Proof.
  unfold callback, response_body.
  destruct (error r1), (error r2);
    cbn [responses omap list_omap fmap list_fmap payload]; intros H;
    rewrite ?success_body, ?failure_body in H.
  - apply singleton_inj, append_inj_l, append_inj_r in H.
    by apply escape_all_inj.
  - vm_compute in H. discriminate H.
  - vm_compute in H. discriminate H.
  - apply singleton_inj, append_inj_l, append_inj_r in H.
    by apply escape_all_inj.
Qed.

Lemma body_determines_output_witness :
  exec_stdout Samples.warned_child = exec_stdout Samples.quiet_child.
Proof.
  apply (body_determines_output Samples.warned_child Samples.quiet_child).
  vm_compute. reflexivity.
Defined.

(** X9.  Whatever the child wrote, the body of the response holds no
    control character: line feeds, quotes and backslashes of the file or
    of the error text are escaped, so the envelope is one line of text
    whose structure the content cannot alter. *)
Theorem body_has_no_control_character
    (exec : Exec) (req : Request) (disk : gmap string Entry) :
  Forall (λ resp, no_control (response_body resp) = true)
         (responses (fst (get_root exec req disk))).
Proof.
  unfold get_root. destruct (exec command disk) as [r disk']. cbn [fst].
  unfold callback, response_body.
  destruct (error r); cbn [responses omap list_omap];
    repeat constructor; cbn [payload];
    rewrite ?success_body, ?failure_body, !no_control_append, no_control_escape_all;
    reflexivity.
Qed.

(** *** The handler over init-demo.js *)

(** X10.  The endpoint, by what the file system has at the resolved
    path of [sample.txt], for a child whose two streams fit the buffer
    of [exec] (1 MiB each): a readable file gives 200 and its content
    followed by a line feed as output; an entry that cannot be read gives
    500 with the read error as details; no entry gives 500 with the
    not-found line, which names the resolved path, as details. *)
Theorem endpoint_by_sample_entry
    (pf : Platform) (req : Request) (disk : gmap string Entry) :
  App.fits_buffer (run (init_demo pf {| file := Some "sample.txt" |}) disk) →
  let filePath := resolve pf (cwd pf) "sample.txt" in
  responses (fst (get_root (npm_exec pf) req disk)) =
    [ match disk !! filePath with
      | Some (Readable data) =>
          {| http_status := 200;
             payload := JObject
               [ ("status", JString "success");
                 ("data", JObject [ ("output", JString (data +:+ nl)) ]) ] |}
      | Some (Unreadable message) =>
          {| http_status := 500;
             payload := JObject
               [ ("status", JString "error");
                 ("error", JObject
                    [ ("message", JString "npm script execution failed");
                      ("details", JString (red pf (read_failed message) +:+ nl)) ]) ] |}
      | None =>
          {| http_status := 500;
             payload := JObject
               [ ("status", JString "error");
                 ("error", JObject
                    [ ("message", JString "npm script execution failed");
                      ("details", JString (red pf (not_found filePath) +:+ nl)) ]) ] |}
      end ].
Proof.
  intros _ filePath. unfold get_root. rewrite npm_exec_command. cbn [fst].
  rewrite run_by_kind. cbv zeta. unfold kind_of. cbn [file truthy path_argument default from_option id].
  fold filePath. by destruct (disk !! filePath) as [[data|message]|].
Qed.

Lemma endpoint_by_sample_entry_witness :
  responses (fst (get_root (npm_exec Demo.platform) Demo.request Demo.disk)) =
    [ {| http_status := 200;
         payload := JObject
           [ ("status", JString "success");
             ("data", JObject [ ("output", JString (Demo.sample_text +:+ nl)) ]) ] |} ].
Proof.
  apply (endpoint_by_sample_entry Demo.platform Demo.request Demo.disk).
  split; vm_compute; discriminate.
Defined.

(** X11.  When [sample.txt] is missing and [chalk.red] leaves its text
    as it is, the 500 response tells the client the absolute path the
    server looked at: the details of the envelope contain the resolved
    path. *)
Theorem missing_sample_discloses_path
    (pf : Platform) (req : Request) (disk : gmap string Entry) :
  (∀ s, red pf s = s) →
  disk !! resolve pf (cwd pf) "sample.txt" = None →
  ∃ resp details,
    responses (fst (get_root (npm_exec pf) req disk)) = [resp]
    ∧ http_status resp = 500
    ∧ member "error" (payload resp) ≫= member "details" = Some (JString details)
    ∧ contains (resolve pf (cwd pf) "sample.txt") details.
Proof.
  intros Hplain Hnone. unfold get_root. rewrite npm_exec_command. cbn [fst].
  rewrite (run_not_found pf {| file := Some "sample.txt" |} disk eq_refl Hnone).
  eexists _, _. split; [reflexivity|]. split; [reflexivity|].
  split; [reflexivity|]. rewrite Hplain.
  apply contains_line, not_found_names_path.
Qed.

Lemma missing_sample_discloses_path_witness :
  ∃ resp details,
    responses (fst (get_root (npm_exec Demo.platform) Demo.request ∅)) = [resp]
    ∧ http_status resp = 500
    ∧ member "error" (payload resp) ≫= member "details" = Some (JString details)
    ∧ contains "/usr/src/app/sample.txt" details.
Proof.
  apply (missing_sample_discloses_path Demo.platform Demo.request ∅).
  - reflexivity.
  - reflexivity.
Defined.

End RequestHandlerExtras.

(** * Properties of the application *)

Module AppFacts.

Import FileReader RequestHandler App.




End AppFacts.
